(** * Verification of the advocate search page (src/app/page.tsx)

    Shallow embedding of the client-side search/filter pipeline of the
    advocates page: the [Advocate] record, the [onChange] filter
    predicate, the [onClick] reset and the initial [fetchAdvocates]
    effect, as written in the revision with lower-cased matching
    (src/unnamed/part_000, lines 43-91).

    JavaScript strings are sequences of UTF-16 code units; a code unit is
    an [N].  [String.prototype.toLowerCase] follows the Unicode default
    case conversion, with its context-sensitive Final_Sigma rule and the
    two-unit lower case of U+0130, over a case table covering Basic Latin,
    Latin-1, Greek and basic Cyrillic; [toUpperCase] covers Basic Latin and
    Latin-1.  Code units outside these tables are treated as caseless.

    A JS number that is a non-negative integer is represented by the [N]
    value of its shortest round-trip decimal (the value s * 10^(n-k) of
    ECMAScript's Number::toString); below 2^53 that is the number itself. *)

From Stdlib Require Import List Bool Arith NArith Lia String Ascii.
From Stdlib Require Import DecimalNat DecimalN.
Import ListNotations.

(** ** JavaScript strings *)
Module JS.

Definition jsstring := list N.

(** Literal helper: an ASCII Rocq string as its code units. *)
Definition lit (s : string) : jsstring :=
  map (fun a => N.of_nat (nat_of_ascii a)) (list_ascii_of_string s).

(** [t] is a prefix of [s]. *)
Fixpoint startsWith (s t : jsstring) : bool :=
  match t, s with
  | [], _ => true
  | c :: t', d :: s' => N.eqb c d && startsWith s' t'
  | _ :: _, [] => false
  end.

(** [s.includes(t)]: [t] occurs in [s] at some index; the empty string
    occurs everywhere. *)
Fixpoint includes (s t : jsstring) : bool :=
  startsWith s t ||
  match s with
  | [] => false
  | _ :: s' => includes s' t
  end.

(** Simple lower-case mapping of one code unit. *)
Definition lower_unit (c : N) : N :=
  if ((65 <=? c) && (c <=? 90))%N then (c + 32)%N
  else if ((192 <=? c) && (c <=? 222) && negb (c =? 215))%N then (c + 32)%N
  else if (c =? 376)%N then 255%N          (* U+0178 -> U+00FF *)
  else if (c =? 902)%N then 940%N          (* U+0386 -> U+03AC *)
  else if ((904 <=? c) && (c <=? 906))%N then (c + 37)%N
  else if (c =? 908)%N then 972%N          (* U+038C -> U+03CC *)
  else if ((910 <=? c) && (c <=? 911))%N then (c + 63)%N
  else if ((913 <=? c) && (c <=? 939) && negb (c =? 930))%N then (c + 32)%N
  else if ((1024 <=? c) && (c <=? 1039))%N then (c + 80)%N
  else if ((1040 <=? c) && (c <=? 1071))%N then (c + 32)%N
  else c.

(** Cased letters (Unicode property Cased) of the modelled tables. *)
Definition is_cased (c : N) : bool :=
  (((65 <=? c) && (c <=? 90)) || ((97 <=? c) && (c <=? 122)) ||
   (c =? 170) || (c =? 181) || (c =? 186) ||
   ((192 <=? c) && (c <=? 255) && negb (c =? 215) && negb (c =? 247)) ||
   (c =? 304) || (c =? 376) || (c =? 902) ||
   ((904 <=? c) && (c <=? 974) && negb (c =? 907) && negb (c =? 909) &&
    negb (c =? 930)) ||
   ((1024 <=? c) && (c <=? 1119)))%N.

(** Case-ignorable code units (Unicode property Case_Ignorable) of the
    modelled tables: apostrophe, full stop, colon, circumflex, grave,
    the Latin-1 spacing marks and the combining diacritics. *)
Definition is_case_ignorable (c : N) : bool :=
  ((c =? 39) || (c =? 46) || (c =? 58) || (c =? 94) || (c =? 96) ||
   (c =? 168) || (c =? 173) || (c =? 175) || (c =? 180) || (c =? 183) ||
   (c =? 184) || ((768 <=? c) && (c <=? 879)))%N.

(** After the units seen so far, is the position preceded by a cased
    letter followed by case-ignorable units only? *)
Definition afterCasedNext (afterCased : bool) (c : N) : bool :=
  if is_cased c then true else if is_case_ignorable c then afterCased else false.

(** Do case-ignorable units, then a cased letter, follow? *)
Fixpoint followedByCased (s : jsstring) : bool :=
  match s with
  | [] => false
  | c :: r => if is_cased c then true
              else if is_case_ignorable c then followedByCased r else false
  end.

(** Full lower case of one unit in its context: Final_Sigma turns U+03A3
    into U+03C2 at the end of a word and into U+03C3 elsewhere; U+0130
    becomes "i" followed by U+0307. *)
Definition lower_in_context (afterCased : bool) (c : N) (rest : jsstring) : jsstring :=
  if (c =? 931)%N then
    (if afterCased && negb (followedByCased rest) then [962%N] else [963%N])
  else if (c =? 304)%N then [105%N; 775%N]
  else [lower_unit c].

Fixpoint lowerFrom (afterCased : bool) (s : jsstring) : jsstring :=
  match s with
  | [] => []
  | c :: r => lower_in_context afterCased c r ++ lowerFrom (afterCasedNext afterCased c) r
  end.

(** Upper-case mapping of one code unit; U+00DF (sharp s) expands to "SS". *)
Definition upper_unit (c : N) : list N :=
  if ((97 <=? c) && (c <=? 122))%N then [(c - 32)%N]
  else if (c =? 223)%N then [83%N; 83%N]
  else if ((224 <=? c) && (c <=? 254) && negb (c =? 247))%N then [(c - 32)%N]
  else if (c =? 255)%N then [376%N]
  else if (c =? 181)%N then [924%N]         (* U+00B5 MICRO SIGN -> U+039C *)
  else if (c =? 956)%N then [924%N]
  else [c].

Definition toLowerCase (s : jsstring) : jsstring := lowerFrom false s.
Definition toUpperCase (s : jsstring) : jsstring := flat_map upper_unit s.

(** Decimal digits of a [Decimal.uint] as code units '0'..'9'. *)
Fixpoint uint_units (d : Decimal.uint) : jsstring :=
  match d with
  | Decimal.Nil => []
  | Decimal.D0 d => 48%N :: uint_units d
  | Decimal.D1 d => 49%N :: uint_units d
  | Decimal.D2 d => 50%N :: uint_units d
  | Decimal.D3 d => 51%N :: uint_units d
  | Decimal.D4 d => 52%N :: uint_units d
  | Decimal.D5 d => 53%N :: uint_units d
  | Decimal.D6 d => 54%N :: uint_units d
  | Decimal.D7 d => 55%N :: uint_units d
  | Decimal.D8 d => 56%N :: uint_units d
  | Decimal.D9 d => 57%N :: uint_units d
  end.

(** [Number.prototype.toString()] on a non-negative integer. *)
Definition numberToString (n : nat) : jsstring := uint_units (Nat.to_uint n).

(** Decimal digits of an [N]. *)
Definition numberToStringN (n : N) : jsstring := uint_units (N.to_uint n).

(** Drop leading '0' units (applied to reversed digits). *)
Fixpoint dropZeros (ds : jsstring) : jsstring :=
  match ds with
  | c :: r => if (c =? 48)%N then dropZeros r else ds
  | [] => []
  end.

(** Number::toString step 10 for an integer with n >= 22 digits: the
    significant digits s (trailing zeros dropped), a point after the first
    when k > 1, then "e+" and n - 1. *)
Definition exponentForm (v : N) : jsstring :=
  let d := numberToStringN v in
  let sig := rev (dropZeros (rev d)) in
  match sig with
  | [] => d
  | s1 :: rest =>
      s1 :: app (match rest with [] => [] | _ => 46%N :: rest end)
               (app (lit "e+") (numberToString (List.length d - 1)))
  end.

(** [Number.prototype.toString()] on a non-negative integer [v]: the
    plain digits when v < 10^21 (k <= n <= 21), the exponent form above. *)
Definition numberToStringJS (v : N) : jsstring :=
  if (v <? 10 ^ 21)%N then numberToStringN v else exponentForm v.

(** Letters (Unicode general category L) of the modelled range. *)
Definition is_alpha_unit (c : N) : bool :=
  (((65 <=? c) && (c <=? 90)) || ((97 <=? c) && (c <=? 122)) ||
   (c =? 170) || (c =? 181) || (c =? 186) ||
   ((192 <=? c) && (c <=? 255) && negb (c =? 215) && negb (c =? 247)))%N.

Definition is_ascii_letter (c : N) : bool :=
  (((65 <=? c) && (c <=? 90)) || ((97 <=? c) && (c <=? 122)))%N.

End JS.

Import JS.

(** ** Data model *)

(** [type Advocate] (page.tsx lines 9-19); a [Date] is kept as its
    epoch milliseconds. *)
Record Advocate := mkAdvocate {
  id : option N;
  firstName : jsstring;
  lastName : jsstring;
  city : jsstring;
  degree : jsstring;
  specialties : list jsstring;
  yearsOfExperience : N;
  phoneNumber : N;
  createdAt : option N
}.

(** ** The filter of [onChange] (part_000 lines 69-82) *)

(** The callback passed to [advocates.filter]. *)
Definition matchesAdvocate (value : jsstring) (advocate : Advocate) : bool :=
  let lowerSearchTerm := toLowerCase value in
  includes (toLowerCase (firstName advocate)) lowerSearchTerm ||
  includes (toLowerCase (lastName advocate)) lowerSearchTerm ||
  includes (toLowerCase (city advocate)) lowerSearchTerm ||
  includes (toLowerCase (degree advocate)) lowerSearchTerm ||
  existsb (fun specialty => includes (toLowerCase specialty) lowerSearchTerm)
          (specialties advocate) ||
  includes (numberToStringJS (yearsOfExperience advocate)) value.

Definition filterAdvocates (advocates : list Advocate) (value : jsstring)
  : list Advocate :=
  filter (matchesAdvocate value) advocates.

(** ** The filter on runtime objects

    At run time [jsonResponse.data] is not checked against [Advocate]: a
    field read by the callback may be missing ([undefined], here [None]).
    Calling [toLowerCase], [some] or [toString] on [undefined] throws a
    [TypeError], here the [None] result; [||] short-circuits, so later
    fields are only read when the earlier ones did not match. *)
Record RawAdvocate := mkRawAdvocate {
  raw_firstName : option jsstring;
  raw_lastName : option jsstring;
  raw_city : option jsstring;
  raw_degree : option jsstring;
  raw_specialties : option (list (option jsstring));
  raw_yearsOfExperience : option N
}.

(** [x || y] where [x] and [y] may throw. *)
Definition orElse (x : option bool) (y : option bool) : option bool :=
  match x with
  | Some true => Some true
  | Some false => y
  | None => None
  end.

(** [field.toLowerCase().includes(t)]. *)
Definition lowerIncludes (field : option jsstring) (t : jsstring) : option bool :=
  match field with
  | Some s => Some (includes (toLowerCase s) t)
  | None => None
  end.

(** [Array.prototype.some] with a callback that may throw. *)
Fixpoint someM {A} (f : A -> option bool) (l : list A) : option bool :=
  match l with
  | [] => Some false
  | x :: l' => orElse (f x) (someM f l')
  end.

Definition matchesRaw (value : jsstring) (advocate : RawAdvocate) : option bool :=
  let lowerSearchTerm := toLowerCase value in
  orElse (lowerIncludes (raw_firstName advocate) lowerSearchTerm)
  (orElse (lowerIncludes (raw_lastName advocate) lowerSearchTerm)
  (orElse (lowerIncludes (raw_city advocate) lowerSearchTerm)
  (orElse (lowerIncludes (raw_degree advocate) lowerSearchTerm)
  (orElse (match raw_specialties advocate with
           | Some sps => someM (fun sp => lowerIncludes sp lowerSearchTerm) sps
           | None => None
           end)
  (match raw_yearsOfExperience advocate with
   | Some n => Some (includes (numberToStringJS n) value)
   | None => None
   end))))).

(** [Array.prototype.filter] with a callback that may throw. *)
Fixpoint filterM {A} (p : A -> option bool) (l : list A) : option (list A) :=
  match l with
  | [] => Some []
  | x :: l' =>
      match p x with
      | None => None
      | Some b =>
          match filterM p l' with
          | None => None
          | Some r => Some (if b then x :: r else r)
          end
      end
  end.

Definition filterRaw (advocates : list RawAdvocate) (value : jsstring)
  : option (list RawAdvocate) :=
  filterM (matchesRaw value) advocates.

(** A well-typed [Advocate] seen as a runtime object. *)
Definition toRaw (a : Advocate) : RawAdvocate :=
  mkRawAdvocate (Some (firstName a)) (Some (lastName a)) (Some (city a))
    (Some (degree a)) (Some (map Some (specialties a)))
    (Some (yearsOfExperience a)).

(** ** Page state and event handlers (part_000 lines 44-91)

    [advocates] is the Full List, [filteredAdvocates] the Display List;
    [None] is the value [undefined] that [setAdvocates(jsonResponse.data)]
    stores when the payload has no [data] field. *)
Record State := mkState {
  advocates : option (list Advocate);
  filteredAdvocates : option (list Advocate);
  searchTerm : jsstring
}.

(** [useState<Advocate[]>([])] and [useState<string>("")]. *)
Definition initialState : State := mkState (Some []) (Some []) [].

(** Outcome of [await fetch(...)] followed by [await response.json()]:
    a rejected fetch, a body that is not JSON, or a parsed object whose
    [data] field is read. *)
Inductive FetchOutcome :=
| NetworkError
| InvalidJson
| JsonBody (data : option (list Advocate)).

(** [fetchAdvocates]: both setters on success, [console.error] in the
    [catch] branch. *)
Definition fetchAdvocates (s : State) (r : FetchOutcome) : State :=
  match r with
  | NetworkError | InvalidJson => s
  | JsonBody data => mkState data data (searchTerm s)
  end.

(** [onChange]: [setSearchTerm(value)], then [advocates.filter(...)] and
    [setFilteredAdvocates]; [undefined.filter] throws ([None]). *)
Definition onChange (s : State) (value : jsstring) : option State :=
  match advocates s with
  | Some advs => Some (mkState (advocates s) (Some (filterAdvocates advs value)) value)
  | None => None
  end.

(** [onClick]: [setSearchTerm("")] and [setFilteredAdvocates(advocates)]. *)
Definition onClick (s : State) : State :=
  mkState (advocates s) (advocates s) [].

Inductive Event :=
| Change (value : jsstring)
| Reset.

Definition step (s : State) (e : Event) : option State :=
  match e with
  | Change v => onChange s v
  | Reset => Some (onClick s)
  end.

Fixpoint run (s : State) (es : list Event) : option State :=
  match es with
  | [] => Some s
  | e :: es' =>
      match step s e with
      | Some s' => run s' es'
      | None => None
      end
  end.

(** Display-List invariant: every displayed record is in the Full List
    (both may be [undefined] together). *)
Definition displayInFull (s : State) : Prop :=
  forall d, filteredAdvocates s = Some d ->
  exists f, advocates s = Some f /\ incl d f.

(** ** Sample records (spec section 8) *)
Definition jane : Advocate :=
  mkAdvocate None (lit "Jane") (lit "Doe") (lit "Austin") (lit "MD")
    [lit "Cardiology"] 10%N 5551234%N None.

Definition john : Advocate :=
  mkAdvocate None (lit "John") (lit "Smith") (lit "Boston") (lit "PhD")
    [lit "Neurology"] 5%N 5555678%N None.

(** A record whose last name contains "ss" but no sharp s. *)
Definition strasse : Advocate :=
  mkAdvocate None (lit "Amy") (lit "Strasse") (lit "Bern") (lit "MD")
    [lit "Oncology"] 7%N 5550000%N None.

(** A record whose last name is Greek "ΟΣ" (U+039F U+03A3); no other
    field holds a sigma. *)
Definition omicronSigma : Advocate :=
  mkAdvocate None (lit "Nikos") [927%N; 931%N] (lit "Athens") (lit "MD")
    [lit "Oncology"] 12%N 5550101%N None.

(** The runtime object of [jane] without its [firstName] field. *)
Definition janeNoFirstName : RawAdvocate :=
  mkRawAdvocate None (Some (lit "Doe")) (Some (lit "Austin")) (Some (lit "MD"))
    (Some [Some (lit "Cardiology")]) (Some 10%N).

(** ** The filter of the earlier revision (src/app/page.tsx lines 63-72)

    Case-sensitive [String.prototype.includes] on the four text fields,
    [Array.prototype.includes] (element equality) on [specialties], and
    [advocate.yearsOfExperience.includes(searchTerm)], which throws a
    [TypeError] since numbers have no [includes] method. *)
Definition jsstring_eqb (s t : jsstring) : bool :=
  if list_eq_dec N.eq_dec s t then true else false.

Definition matchesAdvocateV1 (searchTerm : jsstring) (advocate : Advocate)
  : option bool :=
  orElse (Some (includes (firstName advocate) searchTerm))
  (orElse (Some (includes (lastName advocate) searchTerm))
  (orElse (Some (includes (city advocate) searchTerm))
  (orElse (Some (includes (degree advocate) searchTerm))
  (orElse (Some (existsb (jsstring_eqb searchTerm) (specialties advocate)))
  None)))).

Definition filterAdvocatesV1 (advocates : list Advocate) (searchTerm : jsstring)
  : option (list Advocate) :=
  filterM (matchesAdvocateV1 searchTerm) advocates.

(** ** The table (part_000 lines 128-186) *)

(** [keyof Advocate]. *)
Inductive ColumnKey :=
| KId | KFirstName | KLastName | KCity | KDegree | KSpecialties
| KYearsOfExperience | KPhoneNumber | KCreatedAt.

Definition colKeyName (k : ColumnKey) : jsstring :=
  match k with
  | KId => lit "id"
  | KFirstName => lit "firstName"
  | KLastName => lit "lastName"
  | KCity => lit "city"
  | KDegree => lit "degree"
  | KSpecialties => lit "specialties"
  | KYearsOfExperience => lit "yearsOfExperience"
  | KPhoneNumber => lit "phoneNumber"
  | KCreatedAt => lit "createdAt"
  end.

(** [const COLUMNS: ColumnConfig[]] (lines 33-41). *)
Definition COLUMNS : list (ColumnKey * jsstring) :=
  [(KFirstName, lit "First Name"); (KLastName, lit "Last Name");
   (KCity, lit "City"); (KDegree, lit "Degree");
   (KSpecialties, lit "Specialties");
   (KYearsOfExperience, lit "Years of Experience");
   (KPhoneNumber, lit "Phone Number")].

(** Runtime shape of [advocate[col.key]]. *)
Inductive CellValue :=
| VString (s : jsstring)
| VNumber (n : N)
| VArray (items : list jsstring)
| VDate (ms : N)
| VUndefined.

Definition getValue (a : Advocate) (k : ColumnKey) : CellValue :=
  match k with
  | KId => match id a with Some n => VNumber n | None => VUndefined end
  | KFirstName => VString (firstName a)
  | KLastName => VString (lastName a)
  | KCity => VString (city a)
  | KDegree => VString (degree a)
  | KSpecialties => VArray (specialties a)
  | KYearsOfExperience => VNumber (yearsOfExperience a)
  | KPhoneNumber => VNumber (phoneNumber a)
  | KCreatedAt => match createdAt a with Some d => VDate d | None => VUndefined end
  end.


(** [Array.prototype.map] with the index, starting at [i]. *)
Fixpoint mapi_from {A B} (f : nat -> A -> B) (i : nat) (l : list A) : list B :=
  match l with
  | [] => []
  | x :: l' => f i x :: mapi_from f (S i) l'
  end.

(** [const rowKey = advocate.id ?? `advocate-${index}`], as React's
    string key. *)
Definition rowKey (index : nat) (advocate : Advocate) : jsstring :=
  match id advocate with
  | Some n => numberToStringN n
  | None => lit "advocate-" ++ numberToString index
  end.

(** What a [<td>] holds: keyed chips for an array, the locale string of a
    [Date], or the value itself. *)
Inductive CellContent :=
| Chips (items : list (jsstring * jsstring))
| LocaleDate (ms : N)
| Scalar (v : CellValue).

Definition renderCell (rk : jsstring) (k : ColumnKey) (value : CellValue) : CellContent :=
  match value with
  | VArray items =>
      Chips (mapi_from (fun idx item =>
               (rk ++ lit "-" ++ colKeyName k ++ lit "-" ++ numberToString idx, item))
             0 items)
  | VDate d => LocaleDate d
  | v => Scalar v
  end.

(** One [<tr>]: its key and its [<td>]s keyed by column. *)
Definition renderRow (index : nat) (advocate : Advocate)
  : jsstring * list (jsstring * CellContent) :=
  let rk := rowKey index advocate in
  (rk, map (fun col => (colKeyName (fst col),
                        renderCell rk (fst col) (getValue advocate (fst col))))
           COLUMNS).

Definition renderBody (filteredAdvocates : list Advocate)
  : list (jsstring * list (jsstring * CellContent)) :=
  mapi_from renderRow 0 filteredAdvocates.

(** The ids carried by the records that have one. *)
Definition presentIds (l : list Advocate) : list N :=
  flat_map (fun a => match id a with Some n => [n] | None => [] end) l.

(** Subsequence of a list: obtained by dropping elements, order kept. *)
Inductive subseq {A} : list A -> list A -> Prop :=
| subseq_nil : subseq [] []
| subseq_skip x l1 l2 : subseq l1 l2 -> subseq l1 (x :: l2)
| subseq_keep x l1 l2 : subseq l1 l2 -> subseq (x :: l1) (x :: l2).

(** ** The search contract in the words of the spec (section 4.2) *)

(** [f] contains [t] as a substring. *)
Definition containsSub (f t : jsstring) : Prop :=
  exists p q, f = p ++ t ++ q.

(** At least one searched field contains the term: the text fields and
    the specialties after [toLowerCase] of both sides, the years' string
    with the raw term. *)
Definition selectedByLowerCase (t : jsstring) (a : Advocate) : Prop :=
  containsSub (toLowerCase (firstName a)) (toLowerCase t) \/
  containsSub (toLowerCase (lastName a)) (toLowerCase t) \/
  containsSub (toLowerCase (city a)) (toLowerCase t) \/
  containsSub (toLowerCase (degree a)) (toLowerCase t) \/
  (exists sp, In sp (specialties a) /\ containsSub (toLowerCase sp) (toLowerCase t)) \/
  containsSub (numberToStringJS (yearsOfExperience a)) t.

(** ** Lemmas on the string model *)

Lemma startsWith_spec (s t : jsstring) :
  startsWith s t = true <-> exists q, s = t ++ q.
Proof.
  revert s; induction t as [|c t IH]; intros s; simpl.
  - split; [intros _; exists s; reflexivity | destruct s; reflexivity].
  - destruct s as [|d s].
    + split; [discriminate | intros [q Hq]; discriminate].
    + simpl. rewrite andb_true_iff, N.eqb_eq, IH. split.
      * intros [-> [q ->]]. exists q. reflexivity.
      * intros [q Hq]. injection Hq as -> ->. split; [reflexivity | exists q; reflexivity].
Qed.

Lemma includes_unfold (s t : jsstring) :
  includes s t = startsWith s t ||
                 match s with [] => false | _ :: s' => includes s' t end.
Proof. destruct s; reflexivity. Qed.

Lemma includes_spec (s t : jsstring) :
  includes s t = true <-> containsSub s t.
Proof.
  unfold containsSub. induction s as [|d s IH]; rewrite includes_unfold.
  - rewrite orb_false_r, startsWith_spec. split.
    + intros [q Hq]. exists [], q. exact Hq.
    + intros [p [q Hpq]]. destruct p; [exists q; exact Hpq | discriminate].
  - rewrite orb_true_iff, startsWith_spec, IH. split.
    + intros [[q Hq] | [p [q Hpq]]].
      * exists [], q. exact Hq.
      * exists (d :: p), q. rewrite Hpq. reflexivity.
    + intros [p [q Hpq]]. destruct p as [|e p].
      * left. exists q. exact Hpq.
      * right. injection Hpq as _ Hs. exists p, q. exact Hs.
Qed.

Lemma includes_empty (s : jsstring) : includes s [] = true.
Proof. destruct s; reflexivity. Qed.

Lemma includes_chars (s t : jsstring) c :
  includes s t = true -> In c t -> In c s.
Proof.
  rewrite includes_spec. intros [p [q ->]] Hc.
  apply in_or_app. right. apply in_or_app. left. exact Hc.
Qed.

Lemma uint_units_digits d c : In c (uint_units d) -> (48 <= c <= 57)%N.
Proof.
  induction d; simpl; intros H; try contradiction;
    destruct H as [<- | H]; (lia || auto).
Qed.

Lemma numberToString_digits n c : In c (numberToString n) -> (48 <= c <= 57)%N.
Proof. apply uint_units_digits. Qed.

Lemma numberToStringJS_small_digits (v : N) c :
  (v < 10 ^ 21)%N -> In c (numberToStringJS v) -> (48 <= c <= 57)%N.
Proof.
  intros Hv. unfold numberToStringJS.
  replace ((v <? 10 ^ 21)%N) with true by (symmetry; apply N.ltb_lt; exact Hv).
  apply uint_units_digits.
Qed.

(** Case analysis on the comparisons of the case tables, pruning the
    branches that contradict the arithmetic hypotheses. *)
Ltac ncase :=
  repeat match goal with
  | |- context [(?a <=? ?b)%N] =>
      destruct (N.leb_spec a b); try (exfalso; lia); simpl
  | |- context [(?a =? ?b)%N] =>
      destruct (N.eqb_spec a b); try (exfalso; lia); simpl
  end.

Lemma ascii_letter_range c :
  is_ascii_letter c = true -> (65 <= c <= 90 \/ 97 <= c <= 122)%N.
Proof.
  unfold is_ascii_letter. intros H.
  apply orb_true_iff in H as [H | H]; apply andb_true_iff in H as [H1 H2];
    apply N.leb_le in H1; apply N.leb_le in H2; lia.
Qed.

Lemma upper_ascii_letter c :
  is_ascii_letter c = true ->
  exists u, upper_unit c = [u] /\ is_ascii_letter u = true /\
            lower_unit u = lower_unit c.
Proof.
  intros H. pose proof (ascii_letter_range c H) as R.
  unfold upper_unit, lower_unit, is_ascii_letter.
  destruct R as [R | R].
  - exists c. ncase; repeat split; ncase; reflexivity.
  - exists (c - 32)%N. ncase; repeat split; ncase; try reflexivity; lia.
Qed.
Lemma lower_unit_upper_letter c : (65 <= c <= 90)%N -> lower_unit c = (c + 32)%N.
Proof. intros R. unfold lower_unit. ncase; reflexivity. Qed.

Lemma lower_unit_lower_letter c : (97 <= c <= 122)%N -> lower_unit c = c.
Proof. intros R. unfold lower_unit. ncase; reflexivity. Qed.

Lemma lower_ascii_letter c :
  is_ascii_letter c = true ->
  is_ascii_letter (lower_unit c) = true /\ lower_unit (lower_unit c) = lower_unit c.
Proof.
  intros H. pose proof (ascii_letter_range c H) as R.
  destruct R as [R | R].
  - rewrite (lower_unit_upper_letter c R).
    rewrite (lower_unit_lower_letter (c + 32)) by lia.
    unfold is_ascii_letter. split; [ncase; reflexivity | reflexivity].
  - rewrite (lower_unit_lower_letter c R), (lower_unit_lower_letter c R).
    split; [exact H | reflexivity].
Qed.

Lemma upper_letters t :
  Forall (fun c => is_ascii_letter c = true) t ->
  Forall (fun c => is_ascii_letter c = true) (toUpperCase t) /\
  map lower_unit (toUpperCase t) = map lower_unit t /\
  (toUpperCase t = [] <-> t = []).
Proof.
  induction 1 as [|c t Hc _ [IHf [IHl IHe]]]; [repeat split; auto|].
  destruct (upper_ascii_letter c Hc) as [u [Hu [Hul Hlu]]].
  unfold toUpperCase in *. simpl. rewrite Hu. simpl.
  repeat split.
  - constructor; assumption.
  - rewrite Hlu, IHl. reflexivity.
  - discriminate.
  - discriminate.
Qed.

Lemma lower_letters t :
  Forall (fun c => is_ascii_letter c = true) t ->
  Forall (fun c => is_ascii_letter c = true) (map lower_unit t) /\
  map lower_unit (map lower_unit t) = map lower_unit t /\
  (map lower_unit t = [] <-> t = []).
Proof.
  induction 1 as [|c t Hc _ [IHf [IHl IHe]]]; [repeat split; auto|].
  destruct (lower_ascii_letter c Hc) as [Hl1 Hl2].
  simpl.
  repeat split.
  - constructor; assumption.
  - rewrite Hl2, IHl. reflexivity.
  - discriminate.
  - discriminate.
Qed.

(** On a string without U+03A3 and U+0130 (an ASCII one, say),
    [toLowerCase] is the unit-wise simple mapping. *)
Lemma lowerFrom_ascii (b : bool) (s : jsstring) :
  Forall (fun c => is_ascii_letter c = true) s -> lowerFrom b s = map lower_unit s.
Proof.
  intros H. revert b. induction H as [|c s Hc _ IH]; intros b; [reflexivity|].
  simpl. rewrite IH. pose proof (ascii_letter_range c Hc).
  unfold lower_in_context.
  replace ((c =? 931)%N) with false by (symmetry; apply N.eqb_neq; lia).
  replace ((c =? 304)%N) with false by (symmetry; apply N.eqb_neq; lia).
  reflexivity.
Qed.

Lemma toLowerCase_ascii (s : jsstring) :
  Forall (fun c => is_ascii_letter c = true) s -> toLowerCase s = map lower_unit s.
Proof. apply lowerFrom_ascii. Qed.

Lemma years_letters (v : N) t :
  (v < 10 ^ 21)%N ->
  Forall (fun c => is_ascii_letter c = true) t -> t <> [] ->
  includes (numberToStringJS v) t = false.
Proof.
  intros Hv Hf Hne. destruct t as [|c t]; [congruence|].
  inversion Hf as [|? ? Hc _]; subst.
  destruct (includes (numberToStringJS v) (c :: t)) eqn:E; [|reflexivity].
  exfalso.
  pose proof (numberToStringJS_small_digits v c Hv (includes_chars _ _ c E (or_introl eq_refl))).
  pose proof (ascii_letter_range c Hc). lia.
Qed.

(** Two ASCII-letter terms with the same lower-case form and the same
    emptiness select the same records. *)
Lemma matches_same_lower t t' a :
  (yearsOfExperience a < 10 ^ 21)%N ->
  Forall (fun c => is_ascii_letter c = true) t ->
  Forall (fun c => is_ascii_letter c = true) t' ->
  toLowerCase t' = toLowerCase t -> (t' = [] <-> t = []) ->
  matchesAdvocate t' a = matchesAdvocate t a.
Proof.
  intros Hy Ht Ht' Hl He. unfold matchesAdvocate. rewrite Hl. f_equal.
  destruct t as [|c t].
  - assert (t' = []) as -> by (apply He; reflexivity). reflexivity.
  - assert (t' <> []) by (intros E; apply He in E; discriminate).
    rewrite !years_letters by (assumption || discriminate). reflexivity.
Qed.

Lemma someM_map_Some (lt : jsstring) (l : list jsstring) :
  someM (fun sp => lowerIncludes sp lt) (map Some l)
  = Some (existsb (fun sp => includes (toLowerCase sp) lt) l).
Proof.
  induction l as [|x l IH]; [reflexivity|].
  simpl. rewrite IH. destruct (includes (toLowerCase x) lt); reflexivity.
Qed.

Lemma matchesRaw_toRaw (t : jsstring) (a : Advocate) :
  matchesRaw t (toRaw a) = Some (matchesAdvocate t a).
Proof.
  unfold matchesRaw, matchesAdvocate, toRaw. simpl.
  rewrite someM_map_Some.
  repeat match goal with |- context [if ?b then _ else _] => destruct b end;
    try reflexivity; unfold orElse; destruct (existsb _ _); reflexivity.
Qed.

Lemma filterM_raises {A} (p : A -> option bool) (l : list A) x :
  In x l -> p x = None -> filterM p l = None.
Proof.
  induction l as [|y l IH]; simpl; [contradiction|].
  intros [-> | Hin] Hx.
  - rewrite Hx. reflexivity.
  - destruct (p y); [|reflexivity]. rewrite (IH Hin Hx). reflexivity.
Qed.

(** Step lemmas of the page state machine. *)
Lemma step_keeps_advocates s e s' :
  step s e = Some s' -> advocates s' = advocates s.
Proof.
  destruct e as [v|]; simpl.
  - unfold onChange. destruct (advocates s) eqn:E; [|discriminate].
    intros H. injection H as <-. reflexivity.
  - intros H. injection H as <-. reflexivity.
Qed.

Lemma run_keeps_advocates es s s' :
  run s es = Some s' -> advocates s' = advocates s.
Proof.
  revert s. induction es as [|e es IH]; simpl; intros s H.
  - injection H as <-. reflexivity.
  - destruct (step s e) as [s1|] eqn:E; [|discriminate].
    rewrite (IH s1 H). exact (step_keeps_advocates s e s1 E).
Qed.

Example filter_bos : filterAdvocates [jane; john] (lit "bos") = [john].
Proof. reflexivity. Qed.

Example filter_onco :
  matchesAdvocate (lit "onco")
    (mkAdvocate None (lit "A") (lit "B") (lit "C") (lit "D")
       [lit "Pediatrics"; lit "Oncology"] 3%N 1%N None) = true.
Proof. reflexivity. Qed.

Lemma matchesAdvocate_lower_spec (t : jsstring) (a : Advocate) :
  matchesAdvocate t a = true <-> selectedByLowerCase t a.
Proof.
  unfold matchesAdvocate, selectedByLowerCase.
  rewrite !orb_true_iff, existsb_exists, !includes_spec.
  setoid_rewrite includes_spec.
  tauto.
Qed.

Lemma matchesAdvocate_empty (a : Advocate) : matchesAdvocate [] a = true.
Proof.
  unfold matchesAdvocate. change (toLowerCase []) with (@nil N).
  rewrite !includes_empty. reflexivity.
Qed.

(** ** Claims on the filter *)

(** C1 (counterexample): the comparison is not per-character
    case-insensitive. The last name "ΟΣ" (U+039F U+03A3) contains the term
    "Σ", but [toLowerCase] gives "ος" with a final sigma (U+03C2) for the
    name and "σ" (U+03C3) for the lone term, so the record is dropped. *)
Lemma final_sigma_drops_record :
  containsSub (lastName omicronSigma) [931%N] /\
  In omicronSigma [omicronSigma] /\
  filterAdvocates [omicronSigma] [931%N] = [].
Proof.
  split; [exists [927%N], []; reflexivity | split; [left; reflexivity | reflexivity]].
Qed.

(** C1 (amended): a record is in the output of the filter iff it is in
    the input and the [toLowerCase] of its first name, last name, city,
    degree or of one of its specialties contains the [toLowerCase] of the
    term, or the JavaScript [toString] of its years of experience contains
    the raw term, each as a substring. *)
Theorem filter_iff_lowercased_field_contains (L : list Advocate) (t : jsstring) (a : Advocate) :
  In a (filterAdvocates L t) <-> In a L /\ selectedByLowerCase t a.
Proof.
  unfold filterAdvocates. rewrite filter_In, matchesAdvocate_lower_spec. reflexivity.
Qed.

(** C6: the output of the filter is a subsequence of its input, in the
    input's order. *)
Theorem filter_is_subsequence (L : list Advocate) (t : jsstring) :
  subseq (filterAdvocates L t) L.
Proof.
  unfold filterAdvocates. induction L as [|a L IH]; simpl.
  - constructor.
  - destruct (matchesAdvocate t a); constructor; exact IH.
Qed.

(** C4: a record with 15 years of experience in the input is kept both
    for the term "5" and for the term "15". *)
Theorem years_15_matches_5_and_15 (L : list Advocate) (a : Advocate) :
  In a L -> yearsOfExperience a = 15%N ->
  In a (filterAdvocates L (lit "5")) /\ In a (filterAdvocates L (lit "15")).
Proof.
  intros Hin Hy. unfold filterAdvocates. rewrite !filter_In.
  unfold matchesAdvocate. rewrite Hy.
  replace (includes (numberToStringJS 15) (lit "5")) with true by reflexivity.
  replace (includes (numberToStringJS 15) (lit "15")) with true by reflexivity.
  rewrite !orb_true_r. auto.
Qed.

Lemma years_15_matches_5_and_15_witness :
  (In (mkAdvocate None (lit "Ann") (lit "Lee") (lit "Dallas") (lit "RN") [] 15%N 42%N None)
      [jane; mkAdvocate None (lit "Ann") (lit "Lee") (lit "Dallas") (lit "RN") [] 15%N 42%N None]
   /\ yearsOfExperience
        (mkAdvocate None (lit "Ann") (lit "Lee") (lit "Dallas") (lit "RN") [] 15%N 42%N None) = 15%N)
  /\ (In (mkAdvocate None (lit "Ann") (lit "Lee") (lit "Dallas") (lit "RN") [] 15%N 42%N None)
        (filterAdvocates
           [jane; mkAdvocate None (lit "Ann") (lit "Lee") (lit "Dallas") (lit "RN") [] 15%N 42%N None]
           (lit "5"))
      /\ In (mkAdvocate None (lit "Ann") (lit "Lee") (lit "Dallas") (lit "RN") [] 15%N 42%N None)
        (filterAdvocates
           [jane; mkAdvocate None (lit "Ann") (lit "Lee") (lit "Dallas") (lit "RN") [] 15%N 42%N None]
           (lit "15"))).
Proof.
  split.
  - split; [simpl; right; left; reflexivity | reflexivity].
  - apply years_15_matches_5_and_15; [simpl; right; left; reflexivity | reflexivity].
Defined.

(** C5 (counterexample): a whitespace-only term is not trimmed; the
    sample record with no space in any searched field is dropped. *)
Lemma whitespace_term_drops_record :
  filterAdvocates [jane] (lit " ") = [] /\ filterAdvocates [jane] (lit " ") <> [jane].
Proof. split; [reflexivity | discriminate]. Qed.

(** C5 (amended): the empty term keeps every record, and the empty list
    filters to the empty list for any term. *)
Theorem filter_empty_term_and_empty_list :
  (forall L, filterAdvocates L [] = L) /\ (forall t, filterAdvocates [] t = []).
Proof.
  split; [|reflexivity].
  intros L. unfold filterAdvocates. induction L as [|a L IH]; simpl; [reflexivity|].
  rewrite matchesAdvocate_empty, IH. reflexivity.
Qed.

(** C10: the inclusion decision does not read [id], [phoneNumber] or
    [createdAt]: replacing them by any values leaves it unchanged. *)
Theorem matches_ignores_id_phone_createdAt (t : jsstring) (a : Advocate)
    (i : option N) (p : N) (c : option N) :
  matchesAdvocate t
    (mkAdvocate i (firstName a) (lastName a) (city a) (degree a)
       (specialties a) (yearsOfExperience a) p c)
  = matchesAdvocate t a.
Proof. destruct a; reflexivity. Qed.

(** C2 (counterexample): the sharp s (U+00DF) is alphabetic, and
    ["ß".toUpperCase()] is ["SS"]; a record whose last name contains "ss"
    matches the upper-cased term but not the term itself. *)
Lemma sharp_s_upper_changes_filter :
  Forall (fun c => is_alpha_unit c = true) [223%N] /\
  filterAdvocates [strasse] [223%N] = [] /\
  filterAdvocates [strasse] (toUpperCase [223%N]) = [strasse].
Proof. split; [repeat constructor | split; reflexivity]. Qed.

(** C2 (amended): for a list whose years of experience are all below
    10^21 (so that their [toString] is plain digits) and a term made of
    ASCII letters, filtering with the term, its upper-cased form and its
    lower-cased form give the same list. *)
Theorem filter_case_insensitive_ascii (L : list Advocate) (t : jsstring) :
  (forall a, In a L -> (yearsOfExperience a < 10 ^ 21)%N) ->
  Forall (fun c => is_ascii_letter c = true) t ->
  filterAdvocates L (toUpperCase t) = filterAdvocates L t /\
  filterAdvocates L (toLowerCase t) = filterAdvocates L t.
Proof.
  intros Hy Ht.
  destruct (upper_letters t Ht) as [Uf [Ul Ue]].
  destruct (lower_letters t Ht) as [Lf [Ll Le]].
  assert (Hlt : toLowerCase t = map lower_unit t) by (apply toLowerCase_ascii; exact Ht).
  assert (Hlu : toLowerCase (toUpperCase t) = toLowerCase t).
  { rewrite (toLowerCase_ascii (toUpperCase t) Uf), Hlt. exact Ul. }
  assert (Hll : toLowerCase (toLowerCase t) = toLowerCase t).
  { rewrite Hlt, (toLowerCase_ascii (map lower_unit t) Lf). exact Ll. }
  unfold filterAdvocates. split; apply filter_ext_in; intros a Ha.
  - apply matches_same_lower; [exact (Hy a Ha) | exact Ht | exact Uf | exact Hlu | exact Ue].
  - apply matches_same_lower; [exact (Hy a Ha) | exact Ht | rewrite Hlt; exact Lf | exact Hll |].
    rewrite Hlt. exact Le.
Qed.

Lemma filter_case_insensitive_ascii_witness :
  (forall a, In a [jane; john] -> (yearsOfExperience a < 10 ^ 21)%N) /\
  Forall (fun c => is_ascii_letter c = true) (lit "Bos") /\
  (filterAdvocates [jane; john] (toUpperCase (lit "Bos")) = filterAdvocates [jane; john] (lit "Bos") /\
   filterAdvocates [jane; john] (toLowerCase (lit "Bos")) = filterAdvocates [jane; john] (lit "Bos")).
Proof.
  assert (Hy : forall a, In a [jane; john] -> (yearsOfExperience a < 10 ^ 21)%N).
  { intros a [<- | [<- | []]]; vm_compute; reflexivity. }
  split; [exact Hy|]. split; [repeat constructor|].
  apply filter_case_insensitive_ascii; [exact Hy | repeat constructor].
Defined.

(** ** Claims on runtime records *)

(** C3 (counterexample): a record without [firstName] makes the filter
    throw a [TypeError] (here [None]) instead of being excluded. *)
Lemma missing_first_name_raises :
  filterRaw [janeNoFirstName] (lit "x") = None.
Proof. reflexivity. Qed.

(** C3 (amended): on records that have every compared field the filter
    never throws and returns the typed filter's result; a record missing
    its first name makes the whole filter throw, whatever the term. *)
Theorem filter_total_on_complete_records :
  (forall (L : list Advocate) (t : jsstring),
      filterRaw (map toRaw L) t = Some (map toRaw (filterAdvocates L t))) /\
  (forall (L : list RawAdvocate) (r : RawAdvocate) (t : jsstring),
      In r L -> raw_firstName r = None -> filterRaw L t = None).
Proof.
  split.
  - intros L t. unfold filterRaw, filterAdvocates.
    induction L as [|a L IH]; [reflexivity|].
    simpl. rewrite matchesRaw_toRaw, IH.
    destruct (matchesAdvocate t a); reflexivity.
  - intros L r t Hin Hr. unfold filterRaw. apply (filterM_raises _ L r Hin).
    unfold matchesRaw. rewrite Hr. reflexivity.
Qed.

Lemma filter_total_on_complete_records_witness :
  filterRaw (map toRaw [jane; john]) (lit "bos") = Some (map toRaw (filterAdvocates [jane; john] (lit "bos")))
  /\ (In janeNoFirstName [janeNoFirstName] /\ raw_firstName janeNoFirstName = None)
  /\ filterRaw [janeNoFirstName] (lit "bos") = None.
Proof.
  split; [apply (proj1 filter_total_on_complete_records)|].
  split; [split; [left; reflexivity | reflexivity]|].
  apply (proj2 filter_total_on_complete_records _ janeNoFirstName);
    [left; reflexivity | reflexivity].
Defined.

(** ** Claims on the page state *)

(** C7 (counterexample): a JSON payload without a [data] field is not
    treated as a failure: both lists become [undefined] on first load. *)
Lemma payload_without_data_overwrites_lists :
  advocates (fetchAdvocates initialState (JsonBody None)) = None /\
  filteredAdvocates (fetchAdvocates initialState (JsonBody None)) = None /\
  advocates initialState = Some [].
Proof. repeat split. Qed.

(** C7 (amended): a rejected fetch or a body that is not JSON is caught
    and logged, leaving the state unchanged; a parsed body's [data] field
    is stored unchecked in both lists. *)
Theorem fetch_failure_keeps_state (s : State) :
  fetchAdvocates s NetworkError = s /\ fetchAdvocates s InvalidJson = s /\
  (forall data, advocates (fetchAdvocates s (JsonBody data)) = data /\
                filteredAdvocates (fetchAdvocates s (JsonBody data)) = data).
Proof. repeat split. Qed.

(** C8: after fetching [L] and any sequence of searches and resets, the
    reset shows exactly [L] and clears the search term. *)
Theorem reset_restores_full_list (L : list Advocate) (es : list Event) (s : State) :
  run (fetchAdvocates initialState (JsonBody (Some L))) es = Some s ->
  filteredAdvocates (onClick s) = Some L /\ advocates (onClick s) = Some L /\
  searchTerm (onClick s) = [].
Proof.
  intros H. apply run_keeps_advocates in H. simpl in H.
  unfold onClick. simpl. rewrite H. auto.
Qed.

Lemma reset_restores_full_list_witness :
  run (fetchAdvocates initialState (JsonBody (Some [jane; john]))) [Change (lit "bos")]
    = Some (mkState (Some [jane; john]) (Some [john]) (lit "bos")) /\
  (filteredAdvocates (onClick (mkState (Some [jane; john]) (Some [john]) (lit "bos")))
     = Some [jane; john] /\
   advocates (onClick (mkState (Some [jane; john]) (Some [john]) (lit "bos")))
     = Some [jane; john] /\
   searchTerm (onClick (mkState (Some [jane; john]) (Some [john]) (lit "bos"))) = []).
Proof.
  split; [reflexivity|].
  apply (reset_restores_full_list [jane; john] [Change (lit "bos")]). reflexivity.
Defined.

(** C9: fetching, a search-input change and a reset each preserve the
    invariant that every displayed record is in the Full List. *)
Theorem display_subset_of_full_preserved (s : State) :
  displayInFull s ->
  (forall r, displayInFull (fetchAdvocates s r)) /\
  (forall v s', onChange s v = Some s' -> displayInFull s') /\
  displayInFull (onClick s).
Proof.
  intros Hinv. split; [|split].
  - intros [| |data]; simpl; [exact Hinv | exact Hinv |].
    intros d Hd. exists d. split; [exact Hd | apply incl_refl].
  - intros v s'. unfold onChange. destruct (advocates s) as [f|] eqn:E; [|discriminate].
    intros H. injection H as <-. intros d Hd. simpl in Hd. injection Hd as <-.
    exists f. split; [reflexivity | apply incl_filter].
  - intros d Hd. exists d. split; [exact Hd | apply incl_refl].
Qed.

Lemma display_subset_of_full_preserved_witness :
  displayInFull (mkState (Some [jane; john]) (Some [john]) (lit "bos")) /\
  ((forall r, displayInFull (fetchAdvocates (mkState (Some [jane; john]) (Some [john]) (lit "bos")) r)) /\
   (forall v s', onChange (mkState (Some [jane; john]) (Some [john]) (lit "bos")) v = Some s' ->
                 displayInFull s') /\
   displayInFull (onClick (mkState (Some [jane; john]) (Some [john]) (lit "bos")))).
Proof.
  assert (H : displayInFull (mkState (Some [jane; john]) (Some [john]) (lit "bos"))).
  { intros d Hd. simpl in Hd. injection Hd as <-. exists [jane; john].
    split; [reflexivity|]. intros x [<- | []]. right. left. reflexivity. }
  split; [exact H | apply display_subset_of_full_preserved; exact H].
Defined.

(** ** Further properties of the filter *)

(** Filtering the filtered list again with the same term changes nothing. *)
Theorem filter_idempotent (L : list Advocate) (t : jsstring) :
  filterAdvocates (filterAdvocates L t) t = filterAdvocates L t.
Proof.
  unfold filterAdvocates. induction L as [|a L IH]; [reflexivity|].
  simpl. destruct (matchesAdvocate t a) eqn:E; simpl; [rewrite E, IH; reflexivity | exact IH].
Qed.

(** ** The earlier revision's filter (page.tsx) *)

Lemma matchesAdvocateV1_cases (t : jsstring) (a : Advocate) :
  matchesAdvocateV1 t a =
  if includes (firstName a) t || includes (lastName a) t || includes (city a) t ||
     includes (degree a) t || existsb (jsstring_eqb t) (specialties a)
  then Some true else None.
Proof.
  unfold matchesAdvocateV1.
  destruct (includes (firstName a) t), (includes (lastName a) t),
    (includes (city a) t), (includes (degree a) t),
    (existsb (jsstring_eqb t) (specialties a)); reflexivity.
Qed.

(** In the earlier revision the filter never drops a record: it either
    throws or returns the whole list, every record of which matched one
    of the string tests. *)
Theorem filterV1_throws_or_keeps_all (L : list Advocate) (t : jsstring) (r : list Advocate) :
  filterAdvocatesV1 L t = Some r ->
  r = L /\ (forall a, In a L -> matchesAdvocateV1 t a = Some true).
Proof.
  unfold filterAdvocatesV1. revert r. induction L as [|a L IH]; simpl; intros r H.
  - injection H as <-. split; [reflexivity | contradiction].
  - rewrite matchesAdvocateV1_cases in H.
    destruct (_ || _) eqn:E; [|discriminate].
    destruct (filterM (matchesAdvocateV1 t) L) as [r'|] eqn:E'; [|discriminate].
    injection H as <-. destruct (IH r' eq_refl) as [-> Hall]. split; [reflexivity|].
    intros b [<- | Hb]; [rewrite matchesAdvocateV1_cases, E; reflexivity | exact (Hall b Hb)].
Qed.

Lemma filterV1_throws_or_keeps_all_witness :
  filterAdvocatesV1 [jane; john] (lit "o") = Some [jane; john] /\
  ([jane; john] = [jane; john] /\
   (forall a, In a [jane; john] -> matchesAdvocateV1 (lit "o") a = Some true)).
Proof.
  split; [reflexivity|]. apply filterV1_throws_or_keeps_all. reflexivity.
Defined.

(** In the earlier revision, one record that matches no text field
    (case-sensitively) and no specialty exactly makes the filter throw. *)
Theorem filterV1_unmatched_record_throws (L : list Advocate) (t : jsstring) (a : Advocate) :
  In a L ->
  (includes (firstName a) t || includes (lastName a) t || includes (city a) t ||
   includes (degree a) t || existsb (jsstring_eqb t) (specialties a)) = false ->
  filterAdvocatesV1 L t = None.
Proof.
  intros Hin Hf. unfold filterAdvocatesV1. apply (filterM_raises _ L a Hin).
  rewrite matchesAdvocateV1_cases, Hf. reflexivity.
Qed.

Lemma filterV1_unmatched_record_throws_witness :
  (In jane [jane; john] /\
   (includes (firstName jane) (lit "bos") || includes (lastName jane) (lit "bos") ||
    includes (city jane) (lit "bos") || includes (degree jane) (lit "bos") ||
    existsb (jsstring_eqb (lit "bos")) (specialties jane)) = false) /\
  filterAdvocatesV1 [jane; john] (lit "bos") = None.
Proof.
  split; [split; [left; reflexivity | reflexivity]|].
  apply (filterV1_unmatched_record_throws _ _ jane); [left; reflexivity | reflexivity].
Defined.

(** In the earlier revision the empty term never throws and keeps every
    record. *)
Theorem filterV1_empty_term (L : list Advocate) :
  filterAdvocatesV1 L [] = Some L.
Proof.
  unfold filterAdvocatesV1. induction L as [|a L IH]; [reflexivity|].
  simpl. rewrite matchesAdvocateV1_cases, includes_empty, IH. reflexivity.
Qed.

(** ** Keys of the rendered table *)

Lemma uint_units_inj (d1 d2 : Decimal.uint) : uint_units d1 = uint_units d2 -> d1 = d2.
Proof.
  revert d2. induction d1; destruct d2; simpl; intros H;
    try discriminate; try reflexivity;
    injection H as H; f_equal; apply IHd1; exact H.
Qed.

Lemma numberToString_inj (m n : nat) : numberToString m = numberToString n -> m = n.
Proof.
  unfold numberToString. intros H. apply uint_units_inj in H.
  rewrite <- (DecimalNat.Unsigned.of_to m), <- (DecimalNat.Unsigned.of_to n), H.
  reflexivity.
Qed.

Lemma numberToStringN_inj (m n : N) : numberToStringN m = numberToStringN n -> m = n.
Proof.
  unfold numberToStringN. intros H. apply uint_units_inj in H.
  rewrite <- (DecimalN.Unsigned.of_to m), <- (DecimalN.Unsigned.of_to n), H.
  reflexivity.
Qed.

Lemma numberToStringN_head (n : N) :
  exists d rest, numberToStringN n = d :: rest /\ (48 <= d <= 57)%N.
Proof.
  unfold numberToStringN.
  destruct (N.to_uint n) as [| d | d | d | d | d | d | d | d | d | d] eqn:E;
    try (eexists; eexists; split; [reflexivity | lia]).
  exfalso. pose proof (DecimalN.Unsigned.of_to n) as H. rewrite E in H.
  simpl in H. subst n. discriminate E.
Qed.

Lemma rowKey_index_head (i : nat) (a : Advocate) :
  id a = None -> exists rest, rowKey i a = 97%N :: rest.
Proof. intros H. unfold rowKey. rewrite H. eexists. reflexivity. Qed.

Lemma rowKey_id_not_index (i j : nat) (a b : Advocate) (n : N) :
  id a = Some n -> id b = None -> rowKey i a <> rowKey j b.
Proof.
  intros Ha Hb. destruct (rowKey_index_head j b Hb) as [rest Hr]. rewrite Hr.
  unfold rowKey. rewrite Ha. destruct (numberToStringN_head n) as [d [r [-> Hd]]].
  intros E. injection E as E _. lia.
Qed.

Lemma in_mapi_rowKey (i : nat) (L : list Advocate) (k : jsstring) :
  In k (mapi_from rowKey i L) -> exists j b, i <= j /\ In b L /\ k = rowKey j b.
Proof.
  revert i. induction L as [|a L IH]; simpl; intros i H; [contradiction|].
  destruct H as [<- | H].
  - exists i, a. split; [lia | split; [left; reflexivity | reflexivity]].
  - destruct (IH (S i) H) as [j [b [Hj [Hb ->]]]].
    exists j, b. split; [lia | split; [right; exact Hb | reflexivity]].
Qed.

Lemma in_presentIds (L : list Advocate) (n : N) :
  In n (presentIds L) <-> exists b, In b L /\ id b = Some n.
Proof.
  unfold presentIds. rewrite in_flat_map. split.
  - intros [b [Hb Hn]]. exists b. split; [exact Hb|].
    destruct (id b); [destruct Hn as [<- | []]; reflexivity | contradiction].
  - intros [b [Hb Hn]]. exists b. split; [exact Hb|]. rewrite Hn. left. reflexivity.
Qed.

Lemma presentIds_cons (a : Advocate) (L : list Advocate) :
  presentIds (a :: L) = match id a with Some n => [n] | None => [] end ++ presentIds L.
Proof. reflexivity. Qed.

Lemma mapi_rowKey_NoDup (i : nat) (L : list Advocate) :
  NoDup (presentIds L) -> NoDup (mapi_from rowKey i L).
Proof.
  revert i. induction L as [|a L IH]; intros i Hnd; simpl mapi_from; [constructor|].
  assert (Hrest : NoDup (presentIds L)).
  { rewrite presentIds_cons in Hnd.
    destruct (id a); [inversion Hnd; assumption | exact Hnd]. }
  constructor; [|apply IH; exact Hrest].
  intros Hin. apply in_mapi_rowKey in Hin as [j [b [Hj [Hb Hk]]]].
  destruct (id a) as [n|] eqn:Ea, (id b) as [m|] eqn:Eb.
  - unfold rowKey in Hk. rewrite Ea, Eb in Hk. apply numberToStringN_inj in Hk. subst m.
    rewrite presentIds_cons, Ea in Hnd. simpl in Hnd.
    inversion Hnd as [|? ? Hnotin _]. apply Hnotin.
    apply in_presentIds. exists b. split; assumption.
  - exact (rowKey_id_not_index i j a b n Ea Eb Hk).
  - exact (rowKey_id_not_index j i b a m Eb Ea (eq_sym Hk)).
  - unfold rowKey in Hk. rewrite Ea, Eb in Hk. apply app_inv_head in Hk.
    apply numberToString_inj in Hk. lia.
Qed.

(** Row keys ([advocate.id ?? `advocate-${index}`], as strings) are
    pairwise distinct whenever the records that carry an id carry
    distinct ids: an id key is all digits, an index key starts with 'a'. *)
Theorem row_keys_distinct (L : list Advocate) :
  NoDup (presentIds L) -> NoDup (map fst (renderBody L)).
Proof.
  intros H. unfold renderBody.
  assert (E : forall i l, map fst (mapi_from renderRow i l) = mapi_from rowKey i l).
  { intros i l. revert i. induction l as [|a l IH]; intros i; simpl; [reflexivity|].
    rewrite IH. reflexivity. }
  rewrite E. apply mapi_rowKey_NoDup. exact H.
Qed.

Lemma row_keys_distinct_witness :
  NoDup (presentIds [jane; mkAdvocate (Some 0%N) (lit "A") (lit "B") (lit "C") (lit "D") [] 1%N 2%N None; john]) /\
  NoDup (map fst (renderBody [jane; mkAdvocate (Some 0%N) (lit "A") (lit "B") (lit "C") (lit "D") [] 1%N 2%N None; john])).
Proof.
  assert (H : NoDup (presentIds [jane; mkAdvocate (Some 0%N) (lit "A") (lit "B") (lit "C") (lit "D") [] 1%N 2%N None; john])).
  { simpl. constructor; [intros [] | constructor]. }
  split; [exact H | apply row_keys_distinct; exact H].
Defined.

Lemma mapi_keys_NoDup {B} (g : nat -> jsstring) (i : nat) (l : list B) :
  (forall m n, g m = g n -> m = n) ->
  NoDup (map fst (mapi_from (fun idx item => (g idx, item)) i l)).
Proof.
  intros Hg. revert i. induction l as [|x l IH]; intros i; simpl; constructor; [|apply IH].
  intros Hin. apply in_map_iff in Hin as [[k y] [Hk Hin]]. simpl in Hk. subst k.
  assert (Hge : forall j l', In (g i, y) (mapi_from (fun idx item => (g idx, item)) j l') ->
                             i < j -> False).
  { intros j l'. revert j. induction l' as [|z l' IH']; simpl; intros j H Hij; [exact H|].
    destruct H as [H | H].
    - injection H as H _. apply Hg in H. lia.
    - apply (IH' (S j) H). lia. }
  exact (Hge (S i) l Hin (Nat.lt_succ_diag_r i)).
Qed.

Lemma mapi_items {B} (g : nat -> jsstring) (i : nat) (l : list B) :
  map snd (mapi_from (fun idx item => (g idx, item)) i l) = l.
Proof.
  revert i. induction l as [|x l IH]; intros i; simpl; [reflexivity|]. rewrite IH. reflexivity.
Qed.

(** The specialties cell of every rendered row shows each specialty once,
    in the record's order, and the chips' keys
    ([`${rowKey}-${col.key}-${idx}`]) are pairwise distinct. *)
Theorem specialty_chips_in_order_with_distinct_keys (index : nat) (a : Advocate) :
  exists items,
    In (lit "specialties", Chips items) (snd (renderRow index a)) /\
    map snd items = specialties a /\ NoDup (map fst items).
Proof.
  set (g := fun idx => rowKey index a ++ lit "-" ++ colKeyName KSpecialties ++ lit "-"
                       ++ numberToString idx).
  exists (mapi_from (fun idx item => (g idx, item)) 0 (specialties a)).
  split; [|split].
  - simpl. do 4 right. left. reflexivity.
  - apply mapi_items.
  - apply mapi_keys_NoDup. intros m n H. unfold g in H.
    do 4 apply app_inv_head in H. apply numberToString_inj. exact H.
Qed.

